(** * bbgo: the bybit stream decoding layer and the slack notifier

    A shallow embedding of the two Go packages found in
    [src/pkg/notifier/slacknotifier/slack.go]:

    - package [bybit]: the event envelope ([WsEvent]), the operation
      acknowledgement validator ([IsValid]), the topic key codec
      ([genTopic], [getTopicType], [getSymbolFromTopic]) and the domain
      adapters ([OrderBook], [toGlobalKLine]);
    - package [slacknotifier]: [Notify].

    Go strings are byte sequences; [string] (a list of 8-bit [ascii]) is
    used for them unchanged. *)

From Stdlib Require Import Ascii DecimalString.
From stdpp Require Import base strings list gmap.

(** ** Go runtime and library functions used by the packages *)

Module Go.

(** The zero value every Go type has: what a declared and never assigned
    variable or struct field holds. *)
Class Zero (T : Type) := zero : T.
Global Hint Mode Zero ! : typeclass_instances.

Global Instance string_zero : Zero string := EmptyString.
Global Instance bool_zero : Zero bool := false.
Global Instance Z_zero : Zero Z := 0%Z.
(* a nil slice *)
Global Instance slice_zero {A} : Zero (list A) := [].
(* a nil pointer *)
Global Instance pointer_zero {A} : Zero (option A) := None.

(** [strings.Index(s, substr)]: the byte offset of the first occurrence of
    [substr] in [s]; Go's -1 is [None]. *)
Fixpoint Index (s substr : string) : option nat :=
  if String.prefix substr s then Some 0
  else match s with
       | EmptyString => None
       | String _ s' => S <$> Index s' substr
       end.

(** [strings.Contains(s, substr)] is [Index(s, substr) >= 0]. *)
Definition Contains (s substr : string) : bool :=
  match Index s substr with Some _ => true | None => false end.

(** [strings.Split(s, sep)] for a separator that is not empty: the
    substrings of [s] between the occurrences of [sep], found from the left
    and not overlapping; [s] alone when [sep] does not occur, so the result
    is never empty. [skip] counts the bytes of a separator that was just
    matched and that are still to be passed over. (With the empty
    separator Go splits after each UTF-8 sequence instead; no caller in
    these packages does that.) *)
Fixpoint splitFrom (sep : string) (skip : nat) (s : string) : list string :=
  match s with
  | EmptyString => [EmptyString]
  | String c s' =>
      match skip with
      | S k => splitFrom sep k s'
      | O =>
          if String.prefix sep s
          then EmptyString :: splitFrom sep (String.length sep - 1) s'
          else match splitFrom sep 0 s' with
               | x :: xs => String c x :: xs
               | [] => [String c EmptyString]
               end
      end
  end.

Definition Split (s sep : string) : list string := splitFrom sep 0 s.

(** [strings.Join(elems, sep)]. *)
Fixpoint Join (elems : list string) (sep : string) : string :=
  match elems with
  | [] => EmptyString
  | [x] => x
  | x :: xs => x +:+ sep +:+ Join xs sep
  end.

(** The dynamic values handed to [fmt.Sprintf("%v", v)] by the callers of
    the topic codec: strings (also of a named string type such as
    [TopicType]), integers and booleans. *)
Inductive any :=
| VString (s : string)
| VInt (n : Z)
| VBool (b : bool).

(** [fmt.Sprintf("%v", v)]. *)
Definition Sprintf_v (v : any) : string :=
  match v with
  | VString s => s
  | VInt n => NilZero.string_of_int (Z.to_int n)
  | VBool true => "true"
  | VBool false => "false"
  end.

(** The two-valued map read [v, found := m[k]]: the zero value and false
    for a key that is absent. *)
Definition lookup2 `{Countable K} {V} `{Zero V} (m : gmap K V) (k : K) : V * bool :=
  match m !! k with
  | Some v => (v, true)
  | None => (zero, false)
  end.

(** [p == nil] for a pointer. *)
Definition isNil {A} (p : option A) : bool :=
  match p with None => true | Some _ => false end.

End Go.

Import Go.


(** ** Declarations of the imported packages

    [pkg/fixedpoint], [pkg/types], [pkg/exchange/bybit/bybitapi] and the
    standard [time] package are imported by the bybit package and are not
    part of it. Their types are kept abstract, each with its zero value;
    the code below only copies their values. *)

Class Imports := {
  (* fixedpoint.Value *)
  Value : Type;
  Value_zero :: Zero Value;
  (* time.Time; types.Time is declared with the same underlying type, so
     the conversion types.Time(t) keeps the value *)
  Time : Type;
  Time_zero :: Zero Time;
  (* types.MillisecondTimestamp and its method Time() *)
  MillisecondTimestamp : Type;
  MillisecondTimestamp_Time : MillisecondTimestamp -> Time;
  (* types.Interval *)
  Interval : Type;
  Interval_zero :: Zero Interval;
  (* types.ExchangeName and the constant types.ExchangeBybit *)
  ExchangeName : Type;
  ExchangeName_zero :: Zero ExchangeName;
  ExchangeBybit : ExchangeName;
  (* the fields of types.KLine and of types.SliceOrderBook that the bybit
     package never names *)
  KLine_rest : Type;
  KLine_rest_zero :: Zero KLine_rest;
  SliceOrderBook_rest : Type;
  SliceOrderBook_rest_zero :: Zero SliceOrderBook_rest;
}.

(** *** package types *)

Module types.

Module PriceVolume.
Record t `{Imports} := { Price : Value; Volume : Value }.
End PriceVolume.

Definition PriceVolumeSlice `{Imports} : Type := list PriceVolume.t.

Module SliceOrderBook.
Record t `{Imports} := {
  Symbol : string;
  Bids : PriceVolumeSlice;
  Asks : PriceVolumeSlice;
  rest : SliceOrderBook_rest;
}.
End SliceOrderBook.

Global Instance SliceOrderBook_zero `{Imports} : Zero SliceOrderBook.t :=
  {| SliceOrderBook.Symbol := zero;
     SliceOrderBook.Bids := zero;
     SliceOrderBook.Asks := zero;
     SliceOrderBook.rest := zero |}.

Module KLine.
Record t `{Imports} := {
  Exchange : ExchangeName;
  Symbol : string;
  StartTime : Time;
  EndTime : Time;
  Interval : Interval;
  Open : Value;
  Close : Value;
  High : Value;
  Low : Value;
  Volume : Value;
  QuoteVolume : Value;
  Closed : bool;
  rest : KLine_rest;
}.
End KLine.

Global Instance KLine_zero `{Imports} : Zero KLine.t :=
  {| KLine.Exchange := zero;
     KLine.Symbol := zero;
     KLine.StartTime := zero;
     KLine.EndTime := zero;
     KLine.Interval := zero;
     KLine.Open := zero;
     KLine.Close := zero;
     KLine.High := zero;
     KLine.Low := zero;
     KLine.Volume := zero;
     KLine.QuoteVolume := zero;
     KLine.Closed := zero;
     KLine.rest := zero |}.

End types.

(** ** package bybit *)

Module bybit.

(** *** Types *)

Definition WsOpType := string.
Definition WsOpTypePing : WsOpType := "ping".
Definition WsOpTypePong : WsOpType := "pong".
Definition WsOpTypeAuth : WsOpType := "auth".
Definition WsOpTypeSubscribe : WsOpType := "subscribe".

Module WebSocketOpEvent.
Record t := {
  Success : bool;
  RetMsg : string;
  ReqId : string;
  ConnId : string;
  Op : WsOpType;
  Args : list string;
}.
End WebSocketOpEvent.

Definition TopicType := string.
Definition TopicTypeOrderBook : TopicType := "orderbook".
Definition TopicTypeWallet : TopicType := "wallet".
Definition TopicTypeOrder : TopicType := "order".
Definition TopicTypeKLine : TopicType := "kline".

Definition DataType := string.
Definition DataTypeSnapshot : DataType := "snapshot".
Definition DataTypeDelta : DataType := "delta".

Module WebSocketTopicEvent.
Record t `{Imports} := {
  Topic : string;
  Type_ : DataType;
  Ts : MillisecondTimestamp;
  (* json.RawMessage, a byte slice *)
  Data : list Byte.byte;
}.
End WebSocketTopicEvent.

(** The two embedded pointers of the envelope; [None] is nil. *)
Module WsEvent.
Record t `{Imports} := {
  WebSocketOpEvent : option WebSocketOpEvent.t;
  WebSocketTopicEvent : option WebSocketTopicEvent.t;
}.
End WsEvent.

Module BookEvent.
Record t `{Imports} := {
  Symbol : string;
  Bids : types.PriceVolumeSlice;
  Asks : types.PriceVolumeSlice;
  UpdateId : Value;
  SequenceId : Value;
  Type_ : DataType;
}.
End BookEvent.

Module KLine.
Record t `{Imports} := {
  StartTime : MillisecondTimestamp;
  EndTime : MillisecondTimestamp;
  Interval : string;
  OpenPrice : Value;
  ClosePrice : Value;
  HighPrice : Value;
  LowPrice : Value;
  Volume : Value;
  Turnover : Value;
  Confirm : bool;
  Timestamp : MillisecondTimestamp;
}.
End KLine.

(** The errors of the package are made by [fmt.Errorf] from a format and
    the offending value; the constructor stands for the format. *)
Inductive error `{Imports} :=
| (* "unexpected response result: %+v" *)
  UnexpectedResponseResult (w : WebSocketOpEvent.t)
| (* "unexpected op type: %+v" *)
  UnexpectedOpType (w : WebSocketOpEvent.t)
| (* "unexpected topic: %s" *)
  UnexpectedTopic (topic : string)
| (* "unexpected k line interval: %+v" *)
  UnexpectedKLineInterval (k : KLine.t).

(** *** Event envelope *)

Definition IsOp `{Imports} (w : WsEvent.t) : bool :=
  negb (isNil (WsEvent.WebSocketOpEvent w)) && isNil (WsEvent.WebSocketTopicEvent w).

Definition IsTopic `{Imports} (w : WsEvent.t) : bool :=
  isNil (WsEvent.WebSocketOpEvent w) && negb (isNil (WsEvent.WebSocketTopicEvent w)).

(** *** Operation acknowledgements; [None] is the nil error. *)

Definition IsValid `{Imports} (w : WebSocketOpEvent.t) : option error :=
  let op := WebSocketOpEvent.Op w in
  if String.eqb op WsOpTypePing then
    if negb (WebSocketOpEvent.Success w)
       || negb (String.eqb (WebSocketOpEvent.RetMsg w) WsOpTypePong)
    then Some (UnexpectedResponseResult w)
    else None
  else if String.eqb op WsOpTypePong then
    None
  else if String.eqb op WsOpTypeAuth then
    if negb (WebSocketOpEvent.Success w)
       || negb (String.eqb (WebSocketOpEvent.RetMsg w) "")
    then Some (UnexpectedResponseResult w)
    else None
  else if String.eqb op WsOpTypeSubscribe then
    if negb (WebSocketOpEvent.Success w)
    then Some (UnexpectedResponseResult w)
    else None
  else Some (UnexpectedOpType w).

(** *** Order book *)

(** The named result [snapshot] starts as the zero value and three of its
    fields are assigned. *)
Definition OrderBook `{Imports} (e : BookEvent.t) : types.SliceOrderBook.t :=
  let snapshot : types.SliceOrderBook.t := zero in
  let snapshot :=
    {| types.SliceOrderBook.Symbol := BookEvent.Symbol e;
       types.SliceOrderBook.Bids := types.SliceOrderBook.Bids snapshot;
       types.SliceOrderBook.Asks := types.SliceOrderBook.Asks snapshot;
       types.SliceOrderBook.rest := types.SliceOrderBook.rest snapshot |} in
  let snapshot :=
    {| types.SliceOrderBook.Symbol := types.SliceOrderBook.Symbol snapshot;
       types.SliceOrderBook.Bids := BookEvent.Bids e;
       types.SliceOrderBook.Asks := types.SliceOrderBook.Asks snapshot;
       types.SliceOrderBook.rest := types.SliceOrderBook.rest snapshot |} in
  let snapshot :=
    {| types.SliceOrderBook.Symbol := types.SliceOrderBook.Symbol snapshot;
       types.SliceOrderBook.Bids := types.SliceOrderBook.Bids snapshot;
       types.SliceOrderBook.Asks := BookEvent.Asks e;
       types.SliceOrderBook.rest := types.SliceOrderBook.rest snapshot |} in
  snapshot.

(** *** Topic key codec *)

Definition topicSeparator : string := ".".

(** The [for k, v := range in] loop, over the parts that are left: it
    assigns [out[k]]. *)
Fixpoint genTopic_range (k : nat) (in_ : list any) (out : list string) : list string :=
  match in_ with
  | [] => out
  | v :: in' => genTopic_range (S k) in' (<[k := Sprintf_v v]> out)
  end.

Definition genTopic (in_ : list any) : string :=
  let out := replicate (length in_) "" in
  let out := genTopic_range 0 in_ out in
  Join out topicSeparator.

Definition getTopicType (topic : string) : TopicType :=
  let slice := Split topic topicSeparator in
  match slice with
  | [] => ""
  | slice0 :: _ => slice0
  end.

(** [slice[2]] is read only where [len(slice) = 3]. *)
Definition getSymbolFromTopic `{Imports} (topic : string) : string * option error :=
  let slice := Split topic topicSeparator in
  if negb (length slice =? 3) then ("", Some (UnexpectedTopic topic))
  else (nth 2 slice "", None).

(** *** Candles *)

(** [bybitapi.ToGlobalInterval] is a package-level map of the package
    bybitapi; the function reads it, here as its first argument. *)
Definition toGlobalKLine `{Imports} (ToGlobalInterval : gmap string Interval)
    (k : KLine.t) (symbol : string) : types.KLine.t * option error :=
  let '(interval, found) := lookup2 ToGlobalInterval (KLine.Interval k) in
  if negb found then (zero, Some (UnexpectedKLineInterval k))
  else
    ({| types.KLine.Exchange := ExchangeBybit;
        types.KLine.Symbol := symbol;
        types.KLine.StartTime := MillisecondTimestamp_Time (KLine.StartTime k);
        types.KLine.EndTime := MillisecondTimestamp_Time (KLine.EndTime k);
        types.KLine.Interval := interval;
        types.KLine.Open := KLine.OpenPrice k;
        types.KLine.Close := KLine.ClosePrice k;
        types.KLine.High := KLine.HighPrice k;
        types.KLine.Low := KLine.LowPrice k;
        types.KLine.Volume := KLine.Volume k;
        types.KLine.QuoteVolume := KLine.Turnover k;
        types.KLine.Closed := KLine.Confirm k;
        types.KLine.rest := zero |}, None).

End bybit.

(** ** package slacknotifier *)

Module slacknotifier.

Section Notifier.

(* slack.Attachment *)
Context {Attachment : Type}.
(* values of the dynamic types that neither are slack.Attachment nor
   implement SlackAttachmentCreator *)
Context {Plain : Type}.
(* the error of the slack client *)
Context {Err : Type}.

Class SlackAttachmentCreator (T : Type) := SlackAttachment : T -> Attachment.

(** An argument of [Notify], an interface value, by the case of the type
    switch its dynamic type selects: the concrete type [slack.Attachment]
    first, then a type with the method [SlackAttachment], and the values
    no case takes. *)
Inductive arg :=
| IsAttachment (a : Attachment)
| IsCreator {T : Type} `{SlackAttachmentCreator T} (a : T)
| IsPlain (a : Plain).

(** What [Notify] does to the outside, in order. *)
Inductive event :=
| logrus_Infof (format : string) (args : list arg)
| client_PostMessageContext (channel text : string) (escape : bool)
    (attachments : list Attachment)
| logrus_Errorf (err : Err).

(* fmt.Sprintf *)
Context (Sprintf : string -> list arg -> string).

(** A computation that calls the outside: it is given the answer of the
    slack client to a message and yields the events it caused. *)
Definition IO (A : Type) : Type :=
  (string -> string -> list Attachment -> option Err) -> list event * A.

Definition ret {A} (a : A) : IO A := fun _ => ([], a).

Definition bind {A B} (m : IO A) (f : A -> IO B) : IO B :=
  fun client =>
    let '(t1, a) := m client in
    let '(t2, b) := f a client in
    (t1 ++ t2, b).

Notation "x <- m ;; k" := (bind m (fun x => k))
  (at level 100, m at next level, right associativity).

Definition Infof (format : string) (args : list arg) : IO unit :=
  fun _ => ([logrus_Infof format args], tt).

Definition Errorf (err : Err) : IO unit :=
  fun _ => ([logrus_Errorf err], tt).

Definition PostMessageContext (channel text : string) (escape : bool)
    (attachments : list Attachment) : IO (option Err) :=
  fun client =>
    ([client_PostMessageContext channel text escape attachments],
     client channel text attachments).

(** The [for idx, arg := range args] loop, over the arguments that are
    left, with the two variables it updates. *)
Fixpoint Notify_range (idx : Z) (args : list arg)
    (slackAttachments : list Attachment) (slackArgsOffset : Z)
    : list Attachment * Z :=
  match args with
  | [] => (slackAttachments, slackArgsOffset)
  | arg :: args' =>
      match arg with
      | IsAttachment a =>
          let slackArgsOffset :=
            if (slackArgsOffset =? -1)%Z then idx else slackArgsOffset in
          Notify_range (idx + 1) args' (slackAttachments ++ [a]) slackArgsOffset
      | IsCreator a =>
          let slackArgsOffset :=
            if (slackArgsOffset =? -1)%Z then idx else slackArgsOffset in
          Notify_range (idx + 1) args'
            (slackAttachments ++ [SlackAttachment a]) slackArgsOffset
      | IsPlain _ =>
          Notify_range (idx + 1) args' slackAttachments slackArgsOffset
      end
  end.

Definition Notify (channel format : string) (args : list arg) : IO (option Err) :=
  let '(slackAttachments, slackArgsOffset) := Notify_range 0 args [] (-1) in
  let nonSlackArgs :=
    if (slackArgsOffset >? -1)%Z then take (Z.to_nat slackArgsOffset) args
    else args in
  _ <- Infof format nonSlackArgs ;;
  err <- PostMessageContext channel (Sprintf format nonSlackArgs) true
           slackAttachments ;;
  _ <- match err with
       | Some e => Errorf e
       | None => ret tt
       end ;;
  ret err.

(** The notifier holds the slack client, here by what the client answers
    to a message. An option is given the pointer to the notifier and may
    assign its fields; it is a function from the notifier before to the
    notifier after. *)
Record Notifier := {
  client : string -> string -> list Attachment -> option Err;
}.

Definition NotifyOption : Type := Notifier -> Notifier.

(* slack.New(token, slack.OptionDebug(debug)) *)
Context (slack_New : string -> bool -> string -> string -> list Attachment -> option Err).

Definition New (token : string) (options : list NotifyOption) : Notifier :=
  let client := slack_New token true in
  let notifier := {| client := client |} in
  foldl (fun notifier o => o notifier) notifier options.

End Notifier.

Global Arguments arg : clear implicits.
Global Arguments event : clear implicits.

End slacknotifier.

(** * Properties *)

Import bybit.

(** ** Splitting and joining at the topic separator *)

Section TopicSeparator.

Local Abbreviation dot := "."%char.

(** A string without the separator. *)
Definition dotFree (s : string) : Prop := Contains s topicSeparator = false.

Lemma Index_cons_dot (c : ascii) (s : string) :
  Index (String c s) topicSeparator =
  if decide (c = dot) then Some 0 else S <$> Index s topicSeparator.
Proof.
  cbn [Index topicSeparator String.prefix].
  destruct (ascii_dec dot c) as [e|n], (decide (c = dot)) as [e'|n'];
    try congruence; try reflexivity; now destruct s.
Qed.

Lemma Contains_cons_dot (c : ascii) (s : string) :
  Contains (String c s) topicSeparator =
  if decide (c = dot) then true else Contains s topicSeparator.
Proof.
  unfold Contains. rewrite Index_cons_dot.
  destruct (decide (c = dot)); [reflexivity|].
  now destruct (Index s topicSeparator).
Qed.

Lemma dotFree_nil : dotFree "".
Proof. reflexivity. Qed.

Lemma dotFree_cons (c : ascii) (s : string) :
  dotFree (String c s) <-> c <> dot /\ dotFree s.
Proof.
  unfold dotFree. rewrite Contains_cons_dot.
  destruct (decide (c = dot)); intuition congruence.
Qed.

Lemma splitFrom_not_nil (sep : string) (s : string) :
  forall skip, splitFrom sep skip s <> [].
Proof.
  induction s as [|c s IH]; intros skip; cbn [splitFrom]; [easy|].
  destruct skip; [|apply IH].
  destruct (String.prefix sep (String c s)); [easy|].
  destruct (splitFrom sep 0 s); easy.
Qed.

Lemma Split_nil_dot : Split "" topicSeparator = [""].
Proof. reflexivity. Qed.

Lemma Split_cons_dot (c : ascii) (s : string) :
  Split (String c s) topicSeparator =
  if decide (c = dot) then "" :: Split s topicSeparator
  else match Split s topicSeparator with
       | x :: xs => String c x :: xs
       | [] => [String c ""]
       end.
Proof.
  unfold Split. cbn [splitFrom topicSeparator String.prefix String.length Nat.sub].
  destruct (ascii_dec dot c) as [e|n], (decide (c = dot)) as [e'|n'];
    try congruence; try reflexivity; now destruct s.
Qed.

(** The fields of a split are free of the separator ... *)
Lemma Split_dotFree (t : string) : Forall dotFree (Split t topicSeparator).
Proof.
  induction t as [|c t IH].
  - rewrite Split_nil_dot. repeat constructor.
  - rewrite Split_cons_dot. destruct (decide (c = dot)) as [->|Hc].
    + constructor; [apply dotFree_nil | exact IH].
    + destruct (Split t topicSeparator) as [|x xs].
      * constructor; [|constructor]. apply dotFree_cons. split; [exact Hc | apply dotFree_nil].
      * inversion IH; subst. constructor; [|assumption].
        apply dotFree_cons. now split.
Qed.

(** ... and joined again they give the string back. *)
Lemma Join_Split (t : string) : Join (Split t topicSeparator) topicSeparator = t.
Proof.
  induction t as [|c t IH].
  - reflexivity.
  - rewrite Split_cons_dot. destruct (decide (c = dot)) as [->|Hc].
    + pose proof (splitFrom_not_nil topicSeparator t 0) as Hne.
      fold (Split t topicSeparator) in Hne.
      destruct (Split t topicSeparator) as [|x xs]; [congruence|].
      cbn [Join]. cbn [Join] in IH. now rewrite IH.
    + pose proof (splitFrom_not_nil topicSeparator t 0) as Hne.
      fold (Split t topicSeparator) in Hne.
      destruct (Split t topicSeparator) as [|x xs]; [congruence|].
      destruct xs; cbn [Join] in *; rewrite <- IH; reflexivity.
Qed.

Lemma Split_dotFree_one (a : string) : dotFree a -> Split a topicSeparator = [a].
Proof.
  induction a as [|c a IH]; intros Ha; [reflexivity|].
  apply dotFree_cons in Ha as [Hc Ha].
  rewrite Split_cons_dot, decide_False by exact Hc.
  now rewrite (IH Ha).
Qed.

Lemma Split_app_dot (a r : string) :
  dotFree a ->
  Split (a +:+ topicSeparator +:+ r) topicSeparator = a :: Split r topicSeparator.
Proof.
  induction a as [|c a IH]; intros Ha.
  - change ("" +:+ topicSeparator +:+ r) with (String dot r).
    now rewrite Split_cons_dot, decide_True.
  - apply dotFree_cons in Ha as [Hc Ha].
    change (String c a +:+ topicSeparator +:+ r)
      with (String c (a +:+ topicSeparator +:+ r)).
    rewrite Split_cons_dot, decide_False by exact Hc.
    now rewrite (IH Ha).
Qed.

(** Splitting undoes joining fields that are free of the separator. *)
Lemma Split_Join (l : list string) :
  l <> [] -> Forall dotFree l -> Split (Join l topicSeparator) topicSeparator = l.
Proof.
  induction l as [|a l IH]; intros Hne Hl; [congruence|].
  inversion Hl as [|? ? Ha Hl']; subst.
  destruct l as [|b l].
  - cbn [Join]. now apply Split_dotFree_one.
  - change (Join (a :: b :: l) topicSeparator)
      with (a +:+ topicSeparator +:+ Join (b :: l) topicSeparator).
    rewrite Split_app_dot by exact Ha.
    now rewrite IH.
Qed.

End TopicSeparator.

(** ** An instance of the imported declarations, for the examples *)

Global Instance unit_zero : Zero unit := tt.

Definition sample_Imports : Imports :=
  {| Value := Z;
     Time := Z;
     MillisecondTimestamp := Z;
     MillisecondTimestamp_Time := fun ms => ms;
     Interval := string;
     ExchangeName := string;
     ExchangeBybit := "bybit";
     KLine_rest := unit;
     SliceOrderBook_rest := unit |}.

(** ** Operation acknowledgements *)

(** C1. [IsValid] returns the nil error exactly for a ping answered with
    success and "pong", any pong, an auth answered with success and an
    empty message, and a subscribe answered with success; for every other
    operation it returns the error of an unexpected operation type. *)
Theorem IsValid_iff `{Imports} (w : WebSocketOpEvent.t) :
  (IsValid w = None <->
     (WebSocketOpEvent.Op w = "ping" /\ WebSocketOpEvent.Success w = true
      /\ WebSocketOpEvent.RetMsg w = "pong")
     \/ WebSocketOpEvent.Op w = "pong"
     \/ (WebSocketOpEvent.Op w = "auth" /\ WebSocketOpEvent.Success w = true
         /\ WebSocketOpEvent.RetMsg w = "")
     \/ (WebSocketOpEvent.Op w = "subscribe" /\ WebSocketOpEvent.Success w = true))
  /\ (IsValid w = Some (UnexpectedOpType w) <->
        WebSocketOpEvent.Op w <> "ping" /\ WebSocketOpEvent.Op w <> "pong"
        /\ WebSocketOpEvent.Op w <> "auth" /\ WebSocketOpEvent.Op w <> "subscribe").
Proof.
  destruct w as [success retMsg reqId connId op args].
  unfold IsValid, WsOpTypePing, WsOpTypePong, WsOpTypeAuth, WsOpTypeSubscribe.
  cbn [WebSocketOpEvent.Op WebSocketOpEvent.Success WebSocketOpEvent.RetMsg].
  destruct (String.eqb_spec op "ping") as [->|Hping].
  { destruct success, (String.eqb_spec retMsg "pong"); cbn;
      split; split; intros; repeat destruct_or?; destruct_and?;
      try discriminate; try congruence; auto. }
  destruct (String.eqb_spec op "pong") as [->|Hpong].
  { split; split; intros; destruct_and?; try discriminate; try congruence; auto. }
  destruct (String.eqb_spec op "auth") as [->|Hauth].
  { destruct success, (String.eqb_spec retMsg ""); cbn;
      split; split; intros; repeat destruct_or?; destruct_and?;
      try discriminate; try congruence; auto 6. }
  destruct (String.eqb_spec op "subscribe") as [->|Hsub].
  { destruct success; cbn;
      split; split; intros; repeat destruct_or?; destruct_and?;
      try discriminate; try congruence; auto 6. }
  split; split; intros; repeat destruct_or?; destruct_and?;
    try discriminate; try congruence; auto.
Qed.

(** ** Event envelope *)

(** An envelope with exactly one of its two pointers set. *)
Definition wellFormed `{Imports} (w : WsEvent.t) : Prop :=
  (WsEvent.WebSocketOpEvent w <> None /\ WsEvent.WebSocketTopicEvent w = None)
  \/ (WsEvent.WebSocketOpEvent w = None /\ WsEvent.WebSocketTopicEvent w <> None).

(** C2. For every envelope, also one with both pointers set or both nil,
    [IsOp] holds exactly when the op pointer is set and the topic pointer
    is nil, and [IsTopic] exactly when the op pointer is nil and the topic
    pointer is set; the two never hold together, and exactly one of them
    holds exactly for the well-formed envelopes. *)
Theorem IsOp_IsTopic_exclusive `{Imports} (w : WsEvent.t) :
  (IsOp w = true <->
     WsEvent.WebSocketOpEvent w <> None /\ WsEvent.WebSocketTopicEvent w = None)
  /\ (IsTopic w = true <->
        WsEvent.WebSocketOpEvent w = None /\ WsEvent.WebSocketTopicEvent w <> None)
  /\ IsOp w && IsTopic w = false
  /\ (wellFormed w <-> xorb (IsOp w) (IsTopic w) = true).
Proof.
  destruct w as [[op|] [topic|]]; unfold IsOp, IsTopic, wellFormed; cbn;
    repeat split; intros; repeat destruct_or?; destruct_and?;
    try discriminate; try congruence; auto.
Qed.

(** ** Topic key codec *)

Lemma Split_three_iff (t : string) :
  length (Split t topicSeparator) = 3 <->
  exists a b c, dotFree a /\ dotFree b /\ dotFree c
                /\ t = a +:+ "." +:+ b +:+ "." +:+ c.
Proof.
  split.
  - intros Hlen.
    pose proof (Split_dotFree t) as Hfree. pose proof (Join_Split t) as Hjoin.
    destruct (Split t topicSeparator) as [|a [|b [|c [|d l]]]]; try discriminate.
    inversion Hfree as [|? ? Ha Hfree']; clear Hfree.
    inversion Hfree' as [|? ? Hb Hfree'']; clear Hfree'.
    inversion Hfree'' as [|? ? Hc _]; clear Hfree''.
    exists a, b, c. repeat split; assumption || (symmetry; exact Hjoin).
  - intros (a & b & c & Ha & Hb & Hc & ->).
    change (a +:+ "." +:+ b +:+ "." +:+ c) with (Join [a; b; c] topicSeparator).
    rewrite Split_Join; [reflexivity | discriminate | repeat constructor; assumption].
Qed.

Lemma getSymbolFromTopic_three `{Imports} (t a b c : string) :
  Split t topicSeparator = [a; b; c] -> getSymbolFromTopic t = (c, None).
Proof. intros Hs. unfold getSymbolFromTopic. now rewrite Hs. Qed.

Lemma getSymbolFromTopic_joined `{Imports} (a b c : string) :
  dotFree a -> dotFree b -> dotFree c ->
  getSymbolFromTopic (a +:+ "." +:+ b +:+ "." +:+ c) = (c, None).
Proof.
  intros Ha Hb Hc. apply (getSymbolFromTopic_three _ a b).
  change (a +:+ "." +:+ b +:+ "." +:+ c) with (Join [a; b; c] topicSeparator).
  apply Split_Join; [discriminate | repeat constructor; assumption].
Qed.

(** C3. [getSymbolFromTopic] returns the nil error exactly when the topic
    splits at "." into three segments, that is when it is [a.b.c] with no
    "." in [a], [b] and [c]; it then returns the third segment, and for
    every other number of segments the empty string with an error. *)
Theorem getSymbolFromTopic_spec `{Imports} (t : string) :
  (snd (getSymbolFromTopic t) = None <-> length (Split t topicSeparator) = 3)
  /\ (snd (getSymbolFromTopic t) = None <->
        exists a b c, dotFree a /\ dotFree b /\ dotFree c
                      /\ t = a +:+ "." +:+ b +:+ "." +:+ c)
  /\ (forall a b c, Split t topicSeparator = [a; b; c] ->
        getSymbolFromTopic t = (c, None))
  /\ (length (Split t topicSeparator) <> 3 ->
        getSymbolFromTopic t = ("", Some (UnexpectedTopic t)))
  /\ getSymbolFromTopic "orderbook.1.BTCUSDT" = ("BTCUSDT", None)
  /\ getSymbolFromTopic "orderbook.BTCUSDT"
     = ("", Some (UnexpectedTopic "orderbook.BTCUSDT")).
Proof.
  assert (Hiff : snd (getSymbolFromTopic t) = None
                 <-> length (Split t topicSeparator) = 3).
  { unfold getSymbolFromTopic.
    destruct (Nat.eqb_spec (length (Split t topicSeparator)) 3) as [e|n]; cbn;
      split; intros; congruence. }
  split; [exact Hiff|].
  split; [rewrite Hiff; apply Split_three_iff|].
  split; [intros a b c; apply getSymbolFromTopic_three|].
  split; [|split; reflexivity].
  intros Hne. unfold getSymbolFromTopic.
  destruct (Nat.eqb_spec (length (Split t topicSeparator)) 3); [contradiction|reflexivity].
Qed.

Lemma getSymbolFromTopic_spec_witness :
  length (Split "orderbook.1" topicSeparator) <> 3
  /\ getSymbolFromTopic (H := sample_Imports) "orderbook.1"
     = ("", Some (UnexpectedTopic "orderbook.1")).
Proof.
  split.
  - vm_compute. discriminate.
  - apply (getSymbolFromTopic_spec (H := sample_Imports) "orderbook.1").
    vm_compute. discriminate.
Defined.



Lemma getTopicType_cons (c : ascii) (t : string) :
  getTopicType (String c t) =
  if decide (c = "."%char) then "" else String c (getTopicType t).
Proof.
  unfold getTopicType. rewrite Split_cons_dot.
  destruct (decide (c = "."%char)); [reflexivity|].
  pose proof (splitFrom_not_nil topicSeparator t 0) as Hne.
  fold (Split t topicSeparator) in Hne.
  now destruct (Split t topicSeparator).
Qed.

Lemma getTopicType_Index (t : string) :
  getTopicType t =
  match Index t topicSeparator with
  | Some n => String.substring 0 n t
  | None => t
  end.
Proof.
  induction t as [|c t IH]; [reflexivity|].
  rewrite getTopicType_cons, Index_cons_dot.
  destruct (decide (c = "."%char)); [reflexivity|].
  rewrite IH. destruct (Index t topicSeparator); reflexivity.
Qed.

Lemma genTopic_range_spec (in_ : list any) :
  forall (k : nat) (done rest : list string),
    length done = k -> length rest = length in_ ->
    genTopic_range k in_ (done ++ rest) = done ++ map Sprintf_v in_.
Proof.
  induction in_ as [|v in_ IH]; intros k done rest Hk Hrest.
  - destruct rest; [reflexivity|discriminate].
  - destruct rest as [|x rest]; [discriminate|].
    cbn [genTopic_range map].
    rewrite insert_app_r_alt by lia. subst k. rewrite Nat.sub_diag.
    cbn [insert list_insert].
    rewrite (cons_middle (Sprintf_v v) done rest), app_assoc.
    rewrite (IH (S (length done)) (done ++ [Sprintf_v v]) rest).
    + now rewrite <- app_assoc.
    + rewrite length_app. cbn. lia.
    + now injection Hrest.
Qed.

(** The loop fills [out] with the printed parts, in order. *)
Lemma genTopic_map (in_ : list any) :
  genTopic in_ = Join (map Sprintf_v in_) topicSeparator.
Proof.
  unfold genTopic. cbv zeta.
  change (replicate (length in_) "") with ([] ++ replicate (length in_) "").
  rewrite (genTopic_range_spec in_ 0 [] (replicate (length in_) ""));
    [reflexivity | reflexivity | apply length_replicate].
Qed.

Lemma getTopicType_joined (a r : string) :
  dotFree a -> getTopicType (a +:+ topicSeparator +:+ r) = a.
Proof.
  intros Ha. unfold getTopicType. now rewrite Split_app_dot.
Qed.

(** C6. [getTopicType] returns, for every topic and without an error, the
    segment before the first ".": the prefix of the topic that ends where
    "." first occurs, and the whole topic when "." does not occur. *)
Theorem getTopicType_first_segment (t : string) :
  getTopicType t
  = match Index t topicSeparator with
    | Some n => String.substring 0 n t
    | None => t
    end
  /\ dotFree (getTopicType t)
  /\ (Contains t topicSeparator = false -> getTopicType t = t)
  /\ (Contains t topicSeparator = true ->
        exists r, t = getTopicType t +:+ "." +:+ r)
  /\ getTopicType "kline.5.ETHUSDT" = "kline"
  /\ getTopicType "" = "".
Proof.
  split; [apply getTopicType_Index|].
  assert (Hfree : dotFree (getTopicType t)).
  { pose proof (Split_dotFree t) as Hall. unfold getTopicType.
    destruct (Split t topicSeparator); [apply dotFree_nil|].
    now inversion Hall. }
  split; [exact Hfree|].
  split; [|split; [|split; reflexivity]].
  - intros Hno. unfold getTopicType. now rewrite Split_dotFree_one.
  - intros Hyes. pose proof (Join_Split t) as Hjoin. unfold getTopicType.
    destruct (Split t topicSeparator) as [|x [|y l]] eqn:Hs.
    + now apply splitFrom_not_nil in Hs.
    + cbn [Join] in Hjoin. subst x.
      pose proof (Split_dotFree t) as Hall. rewrite Hs in Hall.
      inversion Hall as [|? ? Ht _]. unfold dotFree in Ht. congruence.
    + exists (Join (y :: l) topicSeparator). symmetry. exact Hjoin.
Qed.

Lemma getTopicType_first_segment_witness :
  Contains "order.linear" topicSeparator = true
  /\ (exists r, "order.linear" = getTopicType "order.linear" +:+ "." +:+ r)
  /\ Contains "wallet" topicSeparator = false
  /\ getTopicType "wallet" = "wallet".
Proof.
  split; [reflexivity|]. split.
  - apply (getTopicType_first_segment "order.linear"). reflexivity.
  - split; [reflexivity|].
    apply (getTopicType_first_segment "wallet"). reflexivity.
Defined.

(** C4. [genTopic] puts "." between the printed parts, and a topic built
    from a type, a parameter and a symbol without "." gives back the symbol
    and the type when it is parsed. *)
Theorem genTopic_roundtrip `{Imports} :
  genTopic [] = ""
  /\ (forall v, genTopic [v] = Sprintf_v v)
  /\ (forall v v' vs,
        genTopic (v :: v' :: vs) = Sprintf_v v +:+ "." +:+ genTopic (v' :: vs))
  /\ (forall a b c : string, dotFree a -> dotFree b -> dotFree c ->
        getSymbolFromTopic (genTopic [VString a; VString b; VString c]) = (c, None)
        /\ getTopicType (genTopic [VString a; VString b; VString c]) = a)
  /\ genTopic [VString "orderbook"; VString "1"; VString "BTCUSDT"]
     = "orderbook.1.BTCUSDT"
  /\ genTopic [VString TopicTypeOrderBook; VInt 1; VString "BTCUSDT"]
     = "orderbook.1.BTCUSDT".
Proof.
  split; [reflexivity|]. split; [reflexivity|].
  split; [intros v v' vs; now rewrite !genTopic_map|].
  split; [|split; reflexivity].
  intros a b c Ha Hb Hc. rewrite genTopic_map. split.
  - apply getSymbolFromTopic_joined; assumption.
  - apply (getTopicType_joined a (b +:+ "." +:+ c)). exact Ha.
Qed.

Lemma genTopic_roundtrip_witness :
  dotFree "kline" /\ dotFree "5" /\ dotFree "ETHUSDT"
  /\ getSymbolFromTopic (H := sample_Imports)
       (genTopic [VString "kline"; VString "5"; VString "ETHUSDT"])
     = ("ETHUSDT", None)
  /\ getTopicType (genTopic [VString "kline"; VString "5"; VString "ETHUSDT"])
     = "kline".
Proof.
  split; [reflexivity|]. split; [reflexivity|]. split; [reflexivity|].
  apply (genTopic_roundtrip (H := sample_Imports)); reflexivity.
Defined.

(** ** Domain adapters *)

(** C5. [toGlobalKLine] returns an error exactly when the interval of the
    candle has no entry in the table, and then the zero [types.KLine]
    with it; otherwise the candle with the interval of the table, the
    symbol given, [Closed] and [QuoteVolume] from [Confirm] and
    [Turnover], and the prices, the volume and the two times of [k]. *)
Theorem toGlobalKLine_spec `{Imports} (table : gmap string Interval)
    (k : KLine.t) (symbol : string) :
  (snd (toGlobalKLine table k symbol) <> None <-> table !! KLine.Interval k = None)
  /\ (table !! KLine.Interval k = None ->
        toGlobalKLine table k symbol = (zero, Some (UnexpectedKLineInterval k))
        /\ types.KLine.Exchange (fst (toGlobalKLine table k symbol)) = zero
        /\ types.KLine.Symbol (fst (toGlobalKLine table k symbol)) = ""
        /\ types.KLine.Interval (fst (toGlobalKLine table k symbol)) = zero
        /\ types.KLine.Closed (fst (toGlobalKLine table k symbol)) = false)
  /\ (forall interval, table !! KLine.Interval k = Some interval ->
        exists g, toGlobalKLine table k symbol = (g, None)
          /\ types.KLine.Interval g = interval
          /\ types.KLine.Symbol g = symbol
          /\ types.KLine.Closed g = KLine.Confirm k
          /\ types.KLine.QuoteVolume g = KLine.Turnover k
          /\ types.KLine.Open g = KLine.OpenPrice k
          /\ types.KLine.Close g = KLine.ClosePrice k
          /\ types.KLine.High g = KLine.HighPrice k
          /\ types.KLine.Low g = KLine.LowPrice k
          /\ types.KLine.Volume g = KLine.Volume k
          /\ types.KLine.StartTime g = MillisecondTimestamp_Time (KLine.StartTime k)
          /\ types.KLine.EndTime g = MillisecondTimestamp_Time (KLine.EndTime k)
          /\ types.KLine.Exchange g = ExchangeBybit
          /\ types.KLine.rest g = zero).
Proof.
  unfold toGlobalKLine, lookup2.
  destruct (table !! KLine.Interval k) as [interval|] eqn:Hlookup; cbn.
  - split; [split; intros; congruence|].
    split; [intros; discriminate|].
    intros i [= <-]. eexists. split; [reflexivity|]. cbn. repeat split.
  - split; [split; intros; congruence|].
    split; [intros _; repeat split|].
    intros i; discriminate.
Qed.

(** C8. [OrderBook] copies the symbol, the bids and the asks of the event
    as they are and leaves the rest of the snapshot zero; the update id,
    the sequence id and the type of the event have no part in it. *)
Theorem OrderBook_copies `{Imports} (e : BookEvent.t) :
  OrderBook e
  = {| types.SliceOrderBook.Symbol := BookEvent.Symbol e;
       types.SliceOrderBook.Bids := BookEvent.Bids e;
       types.SliceOrderBook.Asks := BookEvent.Asks e;
       types.SliceOrderBook.rest := zero |}
  /\ types.SliceOrderBook.Symbol (OrderBook e) = BookEvent.Symbol e
  /\ types.SliceOrderBook.Bids (OrderBook e) = BookEvent.Bids e
  /\ types.SliceOrderBook.Asks (OrderBook e) = BookEvent.Asks e
  /\ types.SliceOrderBook.rest (OrderBook e) = zero
  /\ (forall updateId sequenceId type_,
        OrderBook {| BookEvent.Symbol := BookEvent.Symbol e;
                     BookEvent.Bids := BookEvent.Bids e;
                     BookEvent.Asks := BookEvent.Asks e;
                     BookEvent.UpdateId := updateId;
                     BookEvent.SequenceId := sequenceId;
                     BookEvent.Type_ := type_ |}
        = OrderBook e).
Proof. repeat split. Qed.

(** ** Two calls with equal arguments *)


(** ** Notify *)

Section NotifySpec.

Import slacknotifier.

Context {Attachment Plain Err : Type}.
Context (Sprintf : string -> list (arg Attachment Plain) -> string).

Local Abbreviation arg := (arg Attachment Plain).

(** The attachment that an argument stands for, if it is a
    [slack.Attachment] or has the method [SlackAttachment]. *)
Definition asAttachment (a : arg) : option Attachment :=
  match a with
  | IsAttachment x => Some x
  | IsCreator x => Some (SlackAttachment x)
  | IsPlain _ => None
  end.

(** The arguments before the first one that stands for an attachment. *)
Fixpoint beforeAttachments (args : list arg) : list arg :=
  match args with
  | [] => []
  | a :: args' =>
      match asAttachment a with
      | Some _ => []
      | None => a :: beforeAttachments args'
      end
  end.

Lemma beforeAttachments_take (args : list arg) :
  take (length (beforeAttachments args)) args = beforeAttachments args.
Proof.
  induction args as [|a args IH]; cbn; [reflexivity|].
  destruct (asAttachment a); cbn; [reflexivity|]. now rewrite IH.
Qed.

Lemma beforeAttachments_all (args : list arg) :
  omap asAttachment args = [] -> beforeAttachments args = args.
Proof.
  induction args as [|a args IH]; cbn; [reflexivity|].
  destruct (asAttachment a); [discriminate|]. intros Hn. now rewrite IH.
Qed.

Lemma beforeAttachments_split (args : list arg) :
  exists rest,
    args = beforeAttachments args ++ rest
    /\ Forall (fun a => asAttachment a = None) (beforeAttachments args)
    /\ match rest with
       | [] => True
       | a :: _ => is_Some (asAttachment a)
       end.
Proof.
  induction args as [|a args (rest & Happ & Hall & Hrest)]; cbn.
  - exists []. repeat split. constructor.
  - destruct (asAttachment a) as [x|] eqn:Ha.
    + exists (a :: args). repeat split; [constructor|]. rewrite Ha. now exists x.
    + exists rest. split; [cbn; now rewrite <- Happ|]. split; [|exact Hrest].
      constructor; assumption.
Qed.

(** The loop: the attachments are appended in the order of the arguments
    and the offset, once set, is kept. *)
Lemma Notify_range_spec (args : list arg) :
  forall (idx : Z) (slackAttachments : list Attachment) (slackArgsOffset : Z),
    (0 <= idx)%Z ->
    Notify_range idx args slackAttachments slackArgsOffset
    = (slackAttachments ++ omap asAttachment args,
       if (slackArgsOffset =? -1)%Z
       then match omap asAttachment args with
            | [] => (-1)%Z
            | _ :: _ => (idx + Z.of_nat (length (beforeAttachments args)))%Z
            end
       else slackArgsOffset).
Proof.
  induction args as [|a args IH]; intros idx atts off Hidx.
  - cbn [Notify_range]. change (omap asAttachment []) with (@nil Attachment).
    rewrite app_nil_r. destruct (Z.eqb_spec off (-1)); congruence.
  - destruct a as [x|T HT x|x]; cbn [Notify_range omap list_omap asAttachment beforeAttachments].
    + rewrite IH by lia. rewrite <- app_assoc. cbn [app length]. f_equal.
      destruct (off =? -1)%Z eqn:Hoff; [|now rewrite Hoff].
      destruct (Z.eqb_spec idx (-1)); [lia|]. lia.
    + rewrite IH by lia. rewrite <- app_assoc. cbn [app length]. f_equal.
      destruct (off =? -1)%Z eqn:Hoff; [|now rewrite Hoff].
      destruct (Z.eqb_spec idx (-1)); [lia|]. lia.
    + rewrite IH by lia. f_equal.
      destruct (off =? -1)%Z; [|reflexivity].
      destruct (omap asAttachment args); [reflexivity|]. cbn [length]. lia.
Qed.

(** The offset the loop ends with: the index of the first argument that
    stands for an attachment, -1 when there is none. *)
Definition firstAttachmentOffset (args : list arg) : Z :=
  match omap asAttachment args with
  | [] => (-1)%Z
  | _ :: _ => Z.of_nat (length (beforeAttachments args))
  end.

Lemma Notify_range_start (args : list arg) :
  Notify_range 0 args [] (-1) = (omap asAttachment args, firstAttachmentOffset args).
Proof.
  rewrite Notify_range_spec by lia. unfold firstAttachmentOffset.
  cbn [Z.eqb Pos.eqb app Z.add]. reflexivity.
Qed.

Lemma nonSlackArgs_before (args : list arg) :
  (if (firstAttachmentOffset args >? -1)%Z
   then take (Z.to_nat (firstAttachmentOffset args)) args
   else args) = beforeAttachments args.
Proof.
  unfold firstAttachmentOffset.
  destruct (omap asAttachment args) eqn:Hatts.
  - cbn. symmetry. now apply beforeAttachments_all.
  - destruct (Z.gtb_spec (Z.of_nat (length (beforeAttachments args))) (-1)); [|lia].
    rewrite Nat2Z.id. apply beforeAttachments_take.
Qed.

(** C7. [Notify] posts, in the order of the arguments and wherever they
    stand, the attachments of the arguments that are a [slack.Attachment]
    or have the method [SlackAttachment], and formats the text with the
    arguments before the first of these, all of them when there is none;
    the arguments after it that stand for no attachment are dropped. *)
Theorem Notify_attachments_and_format
    (client : string -> string -> list Attachment -> option Err)
    (channel format : string) (args : list arg) :
  exists nonSlackArgs rest,
    args = nonSlackArgs ++ rest
    /\ Forall (fun a => asAttachment a = None) nonSlackArgs
    /\ match rest with
       | [] => True
       | a :: _ => is_Some (asAttachment a)
       end
    /\ let text := Sprintf format nonSlackArgs in
       let slackAttachments := omap asAttachment args in
       let err := client channel text slackAttachments in
       Notify Sprintf channel format args client
       = ([logrus_Infof format nonSlackArgs;
           client_PostMessageContext channel text true slackAttachments]
          ++ match err with
             | Some e => [logrus_Errorf e]
             | None => []
             end,
          err).
Proof.
  destruct (beforeAttachments_split args) as (rest & Happ & Hall & Hrest).
  exists (beforeAttachments args), rest.
  split; [exact Happ|]. split; [exact Hall|]. split; [exact Hrest|].
  cbv zeta. unfold Notify.
  rewrite Notify_range_start, nonSlackArgs_before.
  unfold bind, Infof, PostMessageContext, Errorf, ret.
  destruct (client channel (Sprintf format (beforeAttachments args))
              (omap asAttachment args)); reflexivity.
Qed.

End NotifySpec.

(** ** The theorems at concrete inputs *)

Section Samples.

Local Existing Instance sample_Imports.

Definition sample_table : gmap string (@Interval sample_Imports) :=
  {[ "1" := "1m"; "5" := "5m"; "D" := "1d" ]}.

Definition sample_KLine (interval : string) : KLine.t :=
  {| KLine.StartTime := 1700000000000%Z;
     KLine.EndTime := 1700000059999%Z;
     KLine.Interval := interval;
     KLine.OpenPrice := 100%Z;
     KLine.ClosePrice := 104%Z;
     KLine.HighPrice := 105%Z;
     KLine.LowPrice := 99%Z;
     KLine.Volume := 12%Z;
     KLine.Turnover := 1230%Z;
     KLine.Confirm := true;
     KLine.Timestamp := 1700000059000%Z |}.

Lemma toGlobalKLine_spec_witness :
  sample_table !! KLine.Interval (sample_KLine "7") = None
  /\ toGlobalKLine sample_table (sample_KLine "7") "BTCUSDT"
     = (zero, Some (UnexpectedKLineInterval (sample_KLine "7")))
  /\ sample_table !! KLine.Interval (sample_KLine "5") = Some "5m"
  /\ exists g, toGlobalKLine sample_table (sample_KLine "5") "BTCUSDT" = (g, None)
       /\ types.KLine.Interval g = "5m"
       /\ types.KLine.Symbol g = "BTCUSDT".
Proof.
  split; [reflexivity|]. split.
  - apply (toGlobalKLine_spec sample_table (sample_KLine "7") "BTCUSDT"). reflexivity.
  - split; [reflexivity|].
    destruct (proj2 (proj2 (toGlobalKLine_spec sample_table (sample_KLine "5") "BTCUSDT"))
                "5m" eq_refl) as (g & Hg & Hi & Hs & _).
    exists g. repeat split; assumption.
Defined.

Example toGlobalKLine_mapped :
  toGlobalKLine sample_table (sample_KLine "5") "BTCUSDT"
  = ({| types.KLine.Exchange := "bybit";
        types.KLine.Symbol := "BTCUSDT";
        types.KLine.StartTime := 1700000000000%Z;
        types.KLine.EndTime := 1700000059999%Z;
        types.KLine.Interval := "5m";
        types.KLine.Open := 100%Z;
        types.KLine.Close := 104%Z;
        types.KLine.High := 105%Z;
        types.KLine.Low := 99%Z;
        types.KLine.Volume := 12%Z;
        types.KLine.QuoteVolume := 1230%Z;
        types.KLine.Closed := true;
        types.KLine.rest := tt |}, None).
Proof. reflexivity. Qed.

Definition sample_OpEvent (op : string) (success : bool) (retMsg : string)
    : WebSocketOpEvent.t :=
  {| WebSocketOpEvent.Success := success;
     WebSocketOpEvent.RetMsg := retMsg;
     WebSocketOpEvent.ReqId := "";
     WebSocketOpEvent.ConnId := "c1";
     WebSocketOpEvent.Op := op;
     WebSocketOpEvent.Args := [] |}.

Example IsValid_samples :
  IsValid (sample_OpEvent "ping" true "pong") = None
  /\ IsValid (sample_OpEvent "ping" true "wrong")
     = Some (UnexpectedResponseResult (sample_OpEvent "ping" true "wrong"))
  /\ IsValid (sample_OpEvent "pong" false "") = None
  /\ IsValid (sample_OpEvent "auth" true "") = None
  /\ IsValid (sample_OpEvent "auth" false "")
     = Some (UnexpectedResponseResult (sample_OpEvent "auth" false ""))
  /\ IsValid (sample_OpEvent "subscribe" true "subscribe") = None
  /\ IsValid (sample_OpEvent "subscribe" true "") = None
  /\ IsValid (sample_OpEvent "unknown" true "")
     = Some (UnexpectedOpType (sample_OpEvent "unknown" true "")).
Proof. repeat split. Qed.



End Samples.

Section NotifySamples.

Import slacknotifier.

(* a value with the method SlackAttachment: a trade, shown by its symbol *)
Record Trade := { TradeSymbol : string }.

Local Instance Trade_SlackAttachment : SlackAttachmentCreator (Attachment := string) Trade :=
  fun t => "trade " +:+ TradeSymbol t.

Definition sample_args : list (arg string Z) :=
  [IsPlain 1%Z; IsAttachment "report"; IsPlain 2%Z;
   IsCreator {| TradeSymbol := "BTCUSDT" |}; IsPlain 3%Z].

(* stands for fmt.Sprintf: the format and the number of arguments it is given *)
Definition sample_Sprintf (format : string) (args : list (arg string Z)) : string :=
  format +:+ "/" +:+ Sprintf_v (VInt (Z.of_nat (length args))).

Example Notify_sample :
  Notify (Err := string) sample_Sprintf "alerts" "%d done" sample_args (fun _ _ _ => None)
  = ([logrus_Infof "%d done" [IsPlain 1%Z];
      client_PostMessageContext "alerts" "%d done/1" true
        ["report"; "trade BTCUSDT"]],
     None).
Proof. reflexivity. Qed.

Example Notify_sample_no_attachment :
  Notify (Attachment := string) sample_Sprintf "alerts" "%d %d"
    [IsPlain 1%Z; IsPlain 2%Z] (fun _ _ _ => Some "channel_not_found")
  = ([logrus_Infof "%d %d" [IsPlain 1%Z; IsPlain 2%Z];
      client_PostMessageContext "alerts" "%d %d/2" true [];
      logrus_Errorf "channel_not_found"],
     Some "channel_not_found").
Proof. reflexivity. Qed.

End NotifySamples.

(** * Further properties of the two packages *)

(** ** Topic key codec: counting separators *)

Section TopicCodecMore.

Local Abbreviation dot := "."%char.

(** [strings.Count(s, ".")]: the number of "." bytes of [s]. *)
Fixpoint Count_dot (s : string) : nat :=
  match s with
  | EmptyString => 0
  | String c s' => (if decide (c = dot) then 1 else 0) + Count_dot s'
  end.

Lemma Count_dot_app (a b : string) :
  Count_dot (a +:+ b) = Count_dot a + Count_dot b.
Proof.
  induction a as [|c a IH]; [reflexivity|].
  change (String c a +:+ b) with (String c (a +:+ b)).
  cbn [Count_dot]. rewrite IH. lia.
Qed.

Lemma Count_dot_zero (s : string) : Count_dot s = 0 <-> dotFree s.
Proof.
  induction s as [|c s IH]; [split; reflexivity|].
  rewrite dotFree_cons. cbn [Count_dot].
  destruct (decide (c = dot)) as [->|Hc]; [split; [lia|tauto]|].
  rewrite <- IH. split; [intros; split; [exact Hc|lia]|intros [_ ?]; lia].
Qed.

(** A split has one field more than the string has separators. *)
Lemma Split_length (t : string) :
  length (Split t topicSeparator) = S (Count_dot t).
Proof.
  induction t as [|c t IH]; [reflexivity|].
  rewrite Split_cons_dot. cbn [Count_dot].
  destruct (decide (c = dot)); [cbn [length]; now rewrite IH|].
  destruct (Split t topicSeparator) as [|x xs]; [discriminate|].
  cbn [length] in *. lia.
Qed.

(** The separators of a joined list: those of its elements and one
    between each two neighbours. *)
Lemma Count_dot_Join (l : list string) :
  length l + Count_dot (Join l topicSeparator)
  = length l + (length l - 1) + sum_list_with Count_dot l.
Proof.
  induction l as [|a l IH]; [reflexivity|].
  destruct l as [|b l]; [cbn [Join length sum_list_with]; lia|].
  change (Join (a :: b :: l) topicSeparator)
    with (a +:+ topicSeparator +:+ Join (b :: l) topicSeparator).
  rewrite !Count_dot_app.
  change (Count_dot topicSeparator) with 1.
  cbn [length sum_list_with] in *. lia.
Qed.

Lemma getSymbolFromTopic_ok_iff `{Imports} (t : string) :
  snd (getSymbolFromTopic t) = None <-> Count_dot t = 2.
Proof.
  unfold getSymbolFromTopic. rewrite Split_length.
  destruct (Nat.eqb_spec (S (Count_dot t)) 3) as [e|n]; cbn;
    split; intros; try congruence; lia.
Qed.

(** X1. A topic is accepted by [getSymbolFromTopic] exactly when it holds
    two "." bytes; with any other number it gets the empty string and the
    error that carries the topic. *)
Theorem getSymbolFromTopic_two_separators `{Imports} (t : string) :
  (snd (getSymbolFromTopic t) = None <-> Count_dot t = 2)
  /\ (getSymbolFromTopic t = ("", Some (UnexpectedTopic t)) <-> Count_dot t <> 2)
  /\ length (Split t topicSeparator) = S (Count_dot t).
Proof.
  split; [apply getSymbolFromTopic_ok_iff|]. split; [|apply Split_length].
  pose proof (getSymbolFromTopic_ok_iff t) as Hok.
  unfold getSymbolFromTopic in *.
  destruct (length (Split t topicSeparator) =? 3); cbn in *.
  - split; [discriminate|]. intros Hne. destruct Hne. now apply Hok.
  - split; [|reflexivity]. intros _ Hc. apply Hok in Hc. discriminate.
Qed.

Lemma map_Sprintf_v_VString (l : list string) :
  map Sprintf_v (map VString l) = l.
Proof. induction l as [|a l IH]; [reflexivity|]. cbn. now rewrite IH. Qed.

(** X2. Whatever the parts are, the topic [genTopic] builds from them is
    accepted by [getSymbolFromTopic] exactly when the number of parts and
    the number of "." bytes inside the printed parts add up to 3: so, for
    parts printed without ".", exactly when there are three of them, and
    for three strings exactly when none holds a ".". *)
Theorem genTopic_accepted_iff `{Imports} (in_ : list any) :
  (snd (getSymbolFromTopic (genTopic in_)) = None <->
     length in_ + sum_list_with (fun v => Count_dot (Sprintf_v v)) in_ = 3)
  /\ (Forall (fun v => dotFree (Sprintf_v v)) in_ ->
        (snd (getSymbolFromTopic (genTopic in_)) = None <-> length in_ = 3))
  /\ (forall a b c : string, in_ = [VString a; VString b; VString c] ->
        (snd (getSymbolFromTopic (genTopic in_)) = None <->
           dotFree a /\ dotFree b /\ dotFree c)).
Proof.
  assert (Hgen : snd (getSymbolFromTopic (genTopic in_)) = None <->
                 length in_ + sum_list_with (fun v => Count_dot (Sprintf_v v)) in_ = 3).
  { rewrite getSymbolFromTopic_ok_iff, genTopic_map.
    pose proof (Count_dot_Join (map Sprintf_v in_)) as Hc.
    rewrite length_map in Hc.
    assert (Hs : sum_list_with Count_dot (map Sprintf_v in_)
                 = sum_list_with (fun v => Count_dot (Sprintf_v v)) in_).
    { clear Hc. induction in_ as [|v l IH]; [reflexivity|].
      cbn [map sum_list_with]. now rewrite IH. }
    rewrite Hs in Hc.
    destruct in_ as [|v in_]; [cbn; split; discriminate|].
    cbn [length] in *. lia. }
  split; [exact Hgen|]. split.
  - intros Hall. rewrite Hgen.
    assert (Hz : sum_list_with (fun v => Count_dot (Sprintf_v v)) in_ = 0).
    { clear Hgen. induction Hall as [|v l Hv _ IH]; [reflexivity|].
      cbn [sum_list_with]. apply Count_dot_zero in Hv. lia. }
    rewrite Hz. lia.
  - intros a b c ->. rewrite Hgen. rewrite <- !Count_dot_zero.
    cbn [length sum_list_with Sprintf_v]. lia.
Qed.

Lemma genTopic_accepted_iff_witness :
  Forall (fun v => dotFree (Sprintf_v v)) [VString "kline"; VInt 5]
  /\ (snd (getSymbolFromTopic (H := sample_Imports) (genTopic [VString "kline"; VInt 5]))
      = None <-> length [VString "kline"; VInt 5] = 3)
  /\ (snd (getSymbolFromTopic (H := sample_Imports)
             (genTopic [VString "kline"; VString "5"; VString "BTC.USDT"])) = None
      <-> dotFree "kline" /\ dotFree "5" /\ dotFree "BTC.USDT").
Proof.
  split; [repeat constructor|]. split.
  - apply (proj1 (proj2 (genTopic_accepted_iff (H := sample_Imports)
                           [VString "kline"; VInt 5]))).
    repeat constructor.
  - apply (proj2 (proj2 (genTopic_accepted_iff (H := sample_Imports)
                           [VString "kline"; VString "5"; VString "BTC.USDT"]))).
    reflexivity.
Defined.

End TopicCodecMore.

(** ** Topic key codec: parts that are not strings, and parsing first *)

Lemma string_of_uint_dotFree (d : Decimal.uint) :
  dotFree (NilEmpty.string_of_uint d).
Proof.
  induction d; cbn [NilEmpty.string_of_uint];
    [apply dotFree_nil | apply dotFree_cons; split; [discriminate|assumption] ..].
Qed.

(** An integer or a boolean is printed without ".". *)
Lemma Sprintf_v_dotFree (v : any) :
  (forall s, v = VString s -> dotFree s) -> dotFree (Sprintf_v v).
Proof.
  intros Hs. destruct v as [s|n|[|]]; cbn [Sprintf_v];
    [now apply Hs| |reflexivity|reflexivity].
  destruct n as [|p|p]; cbn [Z.to_int NilZero.string_of_int]; [reflexivity| |].
  - unfold NilZero.string_of_uint.
    pose proof (string_of_uint_dotFree (Pos.to_uint p)) as Hp.
    destruct (Pos.to_uint p); [reflexivity|exact Hp ..].
  - apply dotFree_cons. split; [discriminate|].
    unfold NilZero.string_of_uint.
    pose proof (string_of_uint_dotFree (Pos.to_uint p)) as Hp.
    destruct (Pos.to_uint p); [reflexivity|exact Hp ..].
Qed.

(** X3. A topic built from a type, an integer or boolean parameter and a
    symbol (as the order book topic is from its depth) gives back the
    symbol and the type, whatever the parameter is, when type and symbol
    hold no ".". *)
Theorem genTopic_roundtrip_any `{Imports} (type_ symbol : string) (param : any) :
  dotFree type_ -> dotFree symbol -> (forall s, param = VString s -> dotFree s) ->
  getSymbolFromTopic (genTopic [VString type_; param; VString symbol]) = (symbol, None)
  /\ getTopicType (genTopic [VString type_; param; VString symbol]) = type_.
Proof.
  intros Ht Hs Hp. apply Sprintf_v_dotFree in Hp.
  rewrite genTopic_map. cbn [map Sprintf_v]. split.
  - apply (getSymbolFromTopic_three _ type_ (Sprintf_v param)).
    apply Split_Join; [discriminate | repeat constructor; assumption].
  - unfold getTopicType.
    rewrite Split_Join; [reflexivity | discriminate | repeat constructor; assumption].
Qed.

Lemma genTopic_roundtrip_any_witness :
  getSymbolFromTopic (H := sample_Imports)
    (genTopic [VString "orderbook"; VInt 50; VString "BTCUSDT"]) = ("BTCUSDT", None)
  /\ getTopicType (genTopic [VString "orderbook"; VInt 50; VString "BTCUSDT"])
     = "orderbook".
Proof.
  apply (genTopic_roundtrip_any (H := sample_Imports) "orderbook" "BTCUSDT" (VInt 50));
    [reflexivity | reflexivity | intros s; discriminate].
Defined.

(** X4. Parsing first: every topic is what [genTopic] builds from its
    segments; and a topic that [getSymbolFromTopic] accepts is the one
    built from its type, a middle segment and the symbol returned, none of
    them with a "." inside. *)
Theorem genTopic_of_segments `{Imports} (t : string) :
  genTopic (map VString (Split t topicSeparator)) = t
  /\ (forall symbol, getSymbolFromTopic t = (symbol, None) ->
        exists param,
          dotFree (getTopicType t) /\ dotFree param /\ dotFree symbol
          /\ genTopic [VString (getTopicType t); VString param; VString symbol] = t).
Proof.
  split.
  - rewrite genTopic_map, map_Sprintf_v_VString. apply Join_Split.
  - intros symbol Hok.
    pose proof (Split_dotFree t) as Hfree. pose proof (Join_Split t) as Hjoin.
    unfold getSymbolFromTopic, getTopicType in *.
    destruct (Split t topicSeparator) as [|a [|b [|c [|d l]]]]; cbn in Hok;
      try discriminate.
    injection Hok as <-.
    inversion Hfree as [|? ? Ha Hfree']; clear Hfree.
    inversion Hfree' as [|? ? Hb Hfree'']; clear Hfree'.
    inversion Hfree'' as [|? ? Hc _]; clear Hfree''.
    exists b. split; [exact Ha|]. split; [exact Hb|]. split; [exact Hc|].
    rewrite genTopic_map. exact Hjoin.
Qed.

Lemma genTopic_of_segments_witness :
  exists param,
    dotFree (getTopicType "kline.5.ETHUSDT") /\ dotFree param /\ dotFree "ETHUSDT"
    /\ genTopic [VString (getTopicType "kline.5.ETHUSDT"); VString param;
                 VString "ETHUSDT"] = "kline.5.ETHUSDT".
Proof.
  apply (proj2 (genTopic_of_segments (H := sample_Imports) "kline.5.ETHUSDT")).
  reflexivity.
Defined.

Lemma prefix_getTopicType (t : string) : String.prefix (getTopicType t) t = true.
Proof.
  induction t as [|c t IH]; [reflexivity|].
  rewrite getTopicType_cons. destruct (decide (c = "."%char)); [reflexivity|].
  cbn [String.prefix]. now destruct (ascii_dec c c).
Qed.

(** X5. The type of a topic is a prefix of the topic, it is its own type,
    and it is the type of every topic that continues it after a ".". *)
Theorem getTopicType_idempotent (t : string) :
  String.prefix (getTopicType t) t = true
  /\ getTopicType (getTopicType t) = getTopicType t
  /\ (forall rest, getTopicType (getTopicType t +:+ "." +:+ rest) = getTopicType t).
Proof.
  assert (Hfree : dotFree (getTopicType t)).
  { pose proof (Split_dotFree t) as Hall. unfold getTopicType.
    destruct (Split t topicSeparator); [apply dotFree_nil|]. now inversion Hall. }
  split; [apply prefix_getTopicType|]. split.
  - unfold getTopicType at 1. now rewrite Split_dotFree_one.
  - intros rest. now apply (getTopicType_joined (getTopicType t) rest).
Qed.

(** ** Operation acknowledgements: what is read and what the error holds *)

Ltac IsValid_cases w :=
  destruct w as [success retMsg reqId connId op args];
  unfold IsValid, WsOpTypePing, WsOpTypePong, WsOpTypeAuth, WsOpTypeSubscribe;
  cbn [WebSocketOpEvent.Op WebSocketOpEvent.Success WebSocketOpEvent.RetMsg];
  destruct (String.eqb_spec op "ping") as [->|?];
  [|destruct (String.eqb_spec op "pong") as [->|?];
    [|destruct (String.eqb_spec op "auth") as [->|?];
      [|destruct (String.eqb_spec op "subscribe") as [->|?]]]].

(** X6. Whether an acknowledgement is valid is decided by its [Op],
    [Success] and [RetMsg] alone: the request id, the connection id and
    the arguments are not read. *)
Theorem IsValid_reads `{Imports} (w w' : WebSocketOpEvent.t) :
  WebSocketOpEvent.Op w = WebSocketOpEvent.Op w' ->
  WebSocketOpEvent.Success w = WebSocketOpEvent.Success w' ->
  WebSocketOpEvent.RetMsg w = WebSocketOpEvent.RetMsg w' ->
  (IsValid w = None <-> IsValid w' = None).
Proof.
  intros Hop Hsuccess Hmsg. unfold IsValid.
  rewrite Hop, Hsuccess, Hmsg.
  repeat match goal with
         | |- context [if ?b then _ else _] => destruct b
         end; split; intros; congruence.
Qed.

Lemma IsValid_reads_witness :
  IsValid (H := sample_Imports)
    {| WebSocketOpEvent.Success := true; WebSocketOpEvent.RetMsg := "";
       WebSocketOpEvent.ReqId := "r1"; WebSocketOpEvent.ConnId := "c1";
       WebSocketOpEvent.Op := "auth"; WebSocketOpEvent.Args := [] |} = None
  <-> IsValid (H := sample_Imports)
        {| WebSocketOpEvent.Success := true; WebSocketOpEvent.RetMsg := "";
           WebSocketOpEvent.ReqId := "r2"; WebSocketOpEvent.ConnId := "c2";
           WebSocketOpEvent.Op := "auth"; WebSocketOpEvent.Args := ["a"] |} = None.
Proof.
  apply (IsValid_reads (H := sample_Imports)); reflexivity.
Defined.

(** X7. An error of [IsValid] always holds the event that was checked,
    and it is the error of an unexpected response exactly for a ping that
    is not answered with success and "pong", an auth that is not answered
    with success and an empty message, and a subscribe without success. *)
Theorem IsValid_error `{Imports} (w : WebSocketOpEvent.t) :
  (forall e, IsValid w = Some e ->
     e = UnexpectedResponseResult w \/ e = UnexpectedOpType w)
  /\ (IsValid w = Some (UnexpectedResponseResult w) <->
        (WebSocketOpEvent.Op w = "ping"
         /\ ~ (WebSocketOpEvent.Success w = true /\ WebSocketOpEvent.RetMsg w = "pong"))
        \/ (WebSocketOpEvent.Op w = "auth"
            /\ ~ (WebSocketOpEvent.Success w = true /\ WebSocketOpEvent.RetMsg w = ""))
        \/ (WebSocketOpEvent.Op w = "subscribe" /\ WebSocketOpEvent.Success w = false)).
Proof.
  split.
  - intros e. unfold IsValid.
    repeat match goal with
           | |- context [if ?b then _ else _] => destruct b
           end; intros [= <-]; auto.
  - IsValid_cases w.
    + destruct success, (String.eqb_spec retMsg "pong"); cbn;
        intuition (discriminate || congruence).
    + intuition (discriminate || congruence).
    + destruct success, (String.eqb_spec retMsg ""); cbn;
        intuition (discriminate || congruence).
    + destruct success; cbn; intuition (discriminate || congruence).
    + intuition (discriminate || congruence).
Qed.

Lemma IsValid_error_witness :
  IsValid (H := sample_Imports) (sample_OpEvent "subscribe" false "")
  = Some (UnexpectedResponseResult (sample_OpEvent "subscribe" false "")).
Proof.
  apply (proj2 (IsValid_error (H := sample_Imports) (sample_OpEvent "subscribe" false ""))).
  right; right. split; reflexivity.
Defined.

(** X8. An acknowledgement without success is valid only as a pong. *)
Theorem IsValid_without_success `{Imports} (w : WebSocketOpEvent.t) :
  WebSocketOpEvent.Success w = false ->
  (IsValid w = None <-> WebSocketOpEvent.Op w = "pong").
Proof.
  IsValid_cases w; cbn [WebSocketOpEvent.Success]; intros ->; cbn;
    split; intros; try discriminate; congruence.
Qed.

Lemma IsValid_without_success_witness :
  IsValid (H := sample_Imports) (sample_OpEvent "pong" false "") = None
  <-> WebSocketOpEvent.Op (sample_OpEvent "pong" false "") = "pong".
Proof.
  apply (IsValid_without_success (H := sample_Imports)). reflexivity.
Defined.

(** ** Candles: the interval table *)

Lemma toGlobalKLine_lookup `{Imports} (table table' : gmap string Interval)
    (k : KLine.t) (symbol : string) :
  table' !! KLine.Interval k = table !! KLine.Interval k ->
  toGlobalKLine table' k symbol = toGlobalKLine table k symbol.
Proof. intros Hl. unfold toGlobalKLine, lookup2. now rewrite Hl. Qed.

Lemma toGlobalKLine_ok `{Imports} (table : gmap string Interval)
    (k : KLine.t) (symbol : string) :
  snd (toGlobalKLine table k symbol) = None <-> is_Some (table !! KLine.Interval k).
Proof.
  unfold toGlobalKLine, lookup2.
  destruct (table !! KLine.Interval k) as [i|]; cbn; split;
    try discriminate; eauto.
  intros [i Hi]. discriminate.
Qed.

(** X9. A table with more entries translates every candle that the
    smaller table translates, and to the same result. *)
Theorem toGlobalKLine_table_extension `{Imports} (table table' : gmap string Interval)
    (k : KLine.t) (symbol : string) :
  table ⊆ table' ->
  snd (toGlobalKLine table k symbol) = None ->
  toGlobalKLine table' k symbol = toGlobalKLine table k symbol.
Proof.
  intros Hsub Hok. apply toGlobalKLine_ok in Hok as [i Hi].
  apply toGlobalKLine_lookup. rewrite Hi.
  now apply (lookup_weaken table table').
Qed.

(** X10. Entering an interval code in the table makes the candles of that
    code translate to the interval entered and changes nothing for the
    candles of another code; a candle whose code was deleted, and every
    candle under the empty table, is rejected. *)
Theorem toGlobalKLine_table_update `{Imports} (table : gmap string Interval)
    (k : KLine.t) (symbol : string) (code : string) (interval : Interval) :
  (snd (toGlobalKLine (<[KLine.Interval k := interval]> table) k symbol) = None
   /\ types.KLine.Interval
        (fst (toGlobalKLine (<[KLine.Interval k := interval]> table) k symbol))
      = interval)
  /\ (code <> KLine.Interval k ->
        toGlobalKLine (<[code := interval]> table) k symbol
        = toGlobalKLine table k symbol
        /\ toGlobalKLine (delete code table) k symbol
           = toGlobalKLine table k symbol)
  /\ toGlobalKLine (delete (KLine.Interval k) table) k symbol
     = (zero, Some (UnexpectedKLineInterval k))
  /\ toGlobalKLine ∅ k symbol = (zero, Some (UnexpectedKLineInterval k)).
Proof.
  split; [|split; [|split]].
  - unfold toGlobalKLine, lookup2. rewrite lookup_insert_eq. cbn. split; reflexivity.
  - intros Hne. split; apply toGlobalKLine_lookup.
    + now apply lookup_insert_ne.
    + now apply lookup_delete_ne.
  - unfold toGlobalKLine, lookup2. now rewrite lookup_delete_eq.
  - unfold toGlobalKLine, lookup2. now rewrite lookup_empty.
Qed.

(** X11. Whether a candle is rejected depends on its interval code and the
    table only, not on the symbol or the other fields; and the timestamp
    of the last matched order has no part in the candle returned. *)
Theorem toGlobalKLine_reads `{Imports} (table : gmap string Interval)
    (k : KLine.t) (symbol : string) :
  (forall k' symbol', KLine.Interval k' = KLine.Interval k ->
     (snd (toGlobalKLine table k' symbol') = None
      <-> snd (toGlobalKLine table k symbol) = None))
  /\ (forall timestamp,
        fst (toGlobalKLine table
               {| KLine.StartTime := KLine.StartTime k;
                  KLine.EndTime := KLine.EndTime k;
                  KLine.Interval := KLine.Interval k;
                  KLine.OpenPrice := KLine.OpenPrice k;
                  KLine.ClosePrice := KLine.ClosePrice k;
                  KLine.HighPrice := KLine.HighPrice k;
                  KLine.LowPrice := KLine.LowPrice k;
                  KLine.Volume := KLine.Volume k;
                  KLine.Turnover := KLine.Turnover k;
                  KLine.Confirm := KLine.Confirm k;
                  KLine.Timestamp := timestamp |} symbol)
        = fst (toGlobalKLine table k symbol)).
Proof.
  split.
  - intros k' symbol' Hi. rewrite !toGlobalKLine_ok. now rewrite Hi.
  - intros timestamp. unfold toGlobalKLine, lookup2. cbn [KLine.Interval].
    now destruct (table !! KLine.Interval k).
Qed.

Section TableSamples.

Local Existing Instance sample_Imports.

Lemma toGlobalKLine_table_extension_witness :
  toGlobalKLine (<["60" := "1h"]> sample_table) (sample_KLine "5") "BTCUSDT"
  = toGlobalKLine sample_table (sample_KLine "5") "BTCUSDT".
Proof.
  apply (toGlobalKLine_table_extension sample_table (<["60" := "1h"]> sample_table)).
  - apply insert_subseteq. reflexivity.
  - reflexivity.
Defined.

Lemma toGlobalKLine_table_update_witness :
  toGlobalKLine (<["60" := "1h"]> sample_table) (sample_KLine "5") "BTCUSDT"
  = toGlobalKLine sample_table (sample_KLine "5") "BTCUSDT"
  /\ toGlobalKLine (delete "60" sample_table) (sample_KLine "5") "BTCUSDT"
     = toGlobalKLine sample_table (sample_KLine "5") "BTCUSDT".
Proof.
  apply (proj1 (proj2 (toGlobalKLine_table_update sample_table (sample_KLine "5")
                         "BTCUSDT" "60" "1h"))).
  discriminate.
Defined.

Lemma toGlobalKLine_reads_witness :
  snd (toGlobalKLine sample_table (sample_KLine "5") "ETHUSDT") = None
  <-> snd (toGlobalKLine sample_table (sample_KLine "5") "BTCUSDT") = None.
Proof.
  apply (proj1 (toGlobalKLine_reads sample_table (sample_KLine "5") "BTCUSDT")).
  reflexivity.
Defined.

End TableSamples.

(** ** Notify: the loop over the arguments, and New *)

Section NotifyMore.

Import slacknotifier.

Context {Attachment Plain Err : Type}.
Context (Sprintf : string -> list (arg Attachment Plain) -> string).

Local Abbreviation arg := (arg Attachment Plain).
Local Abbreviation asAttachment := (@asAttachment Attachment Plain).

Lemma Notify_range_app (args1 args2 : list arg) :
  forall (idx : Z) (slackAttachments : list Attachment) (slackArgsOffset : Z),
    Notify_range idx (args1 ++ args2) slackAttachments slackArgsOffset
    = Notify_range (idx + Z.of_nat (length args1)) args2
        (fst (Notify_range idx args1 slackAttachments slackArgsOffset))
        (snd (Notify_range idx args1 slackAttachments slackArgsOffset)).
Proof.
  induction args1 as [|a args1 IH]; intros idx atts off.
  - cbn [app length Notify_range fst snd]. now rewrite Z.add_0_r.
  - replace (idx + Z.of_nat (length (a :: args1)))%Z
      with (idx + 1 + Z.of_nat (length args1))%Z by (cbn [length]; lia).
    destruct a; cbn [app Notify_range]; apply IH.
Qed.

Lemma omap_beforeAttachments (args : list arg) :
  omap asAttachment (beforeAttachments args) = [].
Proof.
  induction args as [|a args IH]; [reflexivity|].
  cbn [beforeAttachments]. destruct (asAttachment a) eqn:Ha; [reflexivity|].
  cbn [omap list_omap]. rewrite Ha. exact IH.
Qed.

Lemma beforeAttachments_lookup (args : list arg) :
  omap asAttachment args <> [] ->
  exists a, args !! length (beforeAttachments args) = Some a
            /\ is_Some (asAttachment a).
Proof.
  induction args as [|a args IH]; [intros Hne; now destruct Hne|].
  cbn [beforeAttachments omap list_omap].
  destruct (asAttachment a) as [x|] eqn:Ha.
  - intros _. exists a. split; [reflexivity|]. rewrite Ha. now exists x.
  - intros Hne. destruct (IH Hne) as (b & Hb & Hsome). exists b. now split.
Qed.

Lemma length_omap_after (args : list arg) :
  length (omap asAttachment args) + length (beforeAttachments args) <= length args.
Proof.
  induction args as [|a args IH]; [reflexivity|].
  cbn [beforeAttachments omap list_omap length].
  destruct (asAttachment a); cbn [length].
  - clear IH. assert (length (omap asAttachment args) <= length args); [|lia].
    induction args as [|b args IH]; [reflexivity|].
    cbn [omap list_omap length]. destruct (asAttachment b); cbn [length]; lia.
  - lia.
Qed.

(** X12. The loop over the arguments can be cut at any place: running it
    over [args1 ++ args2] is running it over [args2] from the index, the
    attachments and the offset that [args1] leaves. So the attachments of
    two lists of arguments are posted one after the other, and once the
    first list has set the offset no later argument moves it. *)
Theorem Notify_range_composes (args1 args2 : list arg) (idx : Z)
    (slackAttachments : list Attachment) (slackArgsOffset : Z) :
  Notify_range idx (args1 ++ args2) slackAttachments slackArgsOffset
  = Notify_range (idx + Z.of_nat (length args1)) args2
      (fst (Notify_range idx args1 slackAttachments slackArgsOffset))
      (snd (Notify_range idx args1 slackAttachments slackArgsOffset))
  /\ fst (Notify_range 0 (args1 ++ args2) [] (-1))
     = fst (Notify_range 0 args1 [] (-1)) ++ fst (Notify_range 0 args2 [] (-1))
  /\ (snd (Notify_range 0 args1 [] (-1)) <> (-1)%Z ->
        snd (Notify_range 0 (args1 ++ args2) [] (-1))
        = snd (Notify_range 0 args1 [] (-1))).
Proof.
  split; [apply Notify_range_app|]. split.
  - rewrite !Notify_range_start. cbn [fst]. apply omap_app.
  - intros Hset. rewrite Notify_range_app.
    rewrite Notify_range_spec by lia. cbn [snd].
    now destruct (Z.eqb_spec (snd (Notify_range 0 args1 [] (-1))) (-1)).
Qed.

(** X13. The offset the loop ends with is -1, and then no attachment was
    collected, or it is the index of an argument: the first that stands
    for an attachment. So the slice [args[:slackArgsOffset]] is always
    within bounds, and no more attachments are collected than there are
    arguments from the offset on. *)
Theorem Notify_range_offset (args : list arg) :
  (snd (Notify_range 0 args [] (-1)) = (-1)%Z
   /\ fst (Notify_range 0 args [] (-1)) = []
   /\ Forall (fun a => asAttachment a = None) args)
  \/ ((0 <= snd (Notify_range 0 args [] (-1)) < Z.of_nat (length args))%Z
      /\ (exists a, args !! Z.to_nat (snd (Notify_range 0 args [] (-1))) = Some a
                    /\ is_Some (asAttachment a))
      /\ Forall (fun a => asAttachment a = None)
           (take (Z.to_nat (snd (Notify_range 0 args [] (-1)))) args)
      /\ (0 < Z.of_nat (length (fst (Notify_range 0 args [] (-1))))
          <= Z.of_nat (length args) - snd (Notify_range 0 args [] (-1)))%Z).
Proof.
  rewrite Notify_range_start. cbn [fst snd]. unfold firstAttachmentOffset.
  pose proof (length_omap_after args) as Hlen.
  pose proof (beforeAttachments_lookup args) as Hlookup.
  destruct (beforeAttachments_split args) as (rest & Happ & Hall & _).
  destruct (omap asAttachment args) as [|x atts] eqn:Hatts.
  - left. split; [reflexivity|]. split; [reflexivity|].
    rewrite <- (beforeAttachments_all args Hatts). exact Hall.
  - right. rewrite Nat2Z.id. cbn [length] in *.
    split; [lia|]. split; [now apply Hlookup|].
    split; [now rewrite beforeAttachments_take|]. lia.
Qed.

Lemma beforeAttachments_app (pre rest : list arg) (a : arg) :
  Forall (fun a => asAttachment a = None) pre -> is_Some (asAttachment a) ->
  beforeAttachments (pre ++ a :: rest) = pre.
Proof.
  intros Hpre [x Hx]. induction Hpre as [|b pre Hb _ IH].
  - cbn [app beforeAttachments]. now rewrite Hx.
  - cbn [app beforeAttachments]. now rewrite Hb, IH.
Qed.

(** The call in closed form, from the arguments before the first
    attachment and the attachments of all arguments. *)
Lemma Notify_closed_form
    (client : string -> string -> list Attachment -> option Err)
    (channel format : string) (args : list arg) :
  Notify Sprintf channel format args client
  = ([logrus_Infof format (beforeAttachments args);
      client_PostMessageContext channel (Sprintf format (beforeAttachments args))
        true (omap asAttachment args)]
     ++ match client channel (Sprintf format (beforeAttachments args))
                (omap asAttachment args) with
        | Some e => [logrus_Errorf e]
        | None => []
        end,
     client channel (Sprintf format (beforeAttachments args))
       (omap asAttachment args)).
Proof.
  unfold Notify. rewrite Notify_range_start, nonSlackArgs_before.
  unfold bind, Infof, PostMessageContext, Errorf, ret.
  destruct (client channel (Sprintf format (beforeAttachments args))
              (omap asAttachment args)); reflexivity.
Qed.

(** X14. After the first argument that stands for an attachment, an
    argument that stands for none is without effect: the call with it and
    the call without it log, post and return the same. *)
Theorem Notify_drops_later_plain
    (client : string -> string -> list Attachment -> option Err)
    (channel format : string) (pre rest1 rest2 : list arg) (a : arg) (p : Plain) :
  Forall (fun a => asAttachment a = None) pre ->
  is_Some (asAttachment a) ->
  Notify Sprintf channel format (pre ++ a :: rest1 ++ IsPlain p :: rest2) client
  = Notify Sprintf channel format (pre ++ a :: rest1 ++ rest2) client.
Proof.
  intros Hpre Ha. rewrite !Notify_closed_form.
  rewrite !(beforeAttachments_app pre _ a Hpre Ha).
  assert (Hatts : omap asAttachment (pre ++ a :: rest1 ++ IsPlain p :: rest2)
                  = omap asAttachment (pre ++ a :: rest1 ++ rest2)).
  { rewrite !omap_app. f_equal.
    change (a :: rest1 ++ IsPlain p :: rest2) with ([a] ++ rest1 ++ [IsPlain p] ++ rest2).
    change (a :: rest1 ++ rest2) with ([a] ++ rest1 ++ rest2).
    rewrite !omap_app. reflexivity. }
  now rewrite Hatts.
Qed.

(** X15. [New] makes the client for the token with debugging on and then
    runs the options from left to right, each on the notifier the ones
    before it left: the options of a longer list start from the notifier
    of the shorter one, and the last option has the last word. *)
Theorem New_options
    (slack_New : string -> bool -> string -> string -> list Attachment -> option Err)
    (token : string) (options options' : list (NotifyOption (Attachment := Attachment) (Err := Err))) :
  New slack_New token [] = {| client := slack_New token true |}
  /\ New slack_New token (options ++ options')
     = foldl (fun notifier o => o notifier) (New slack_New token options) options'
  /\ (forall o, New slack_New token (options ++ [o]) = o (New slack_New token options))
  /\ (forall n, New slack_New token (options ++ [fun _ => n]) = n).
Proof.
  unfold New. cbv zeta.
  split; [reflexivity|]. split; [apply foldl_app|].
  split; [intros o; now rewrite foldl_snoc|intros n; now rewrite foldl_snoc].
Qed.

End NotifyMore.

Section NotifyMoreSamples.

Import slacknotifier.

Lemma Notify_range_composes_witness :
  snd (Notify_range 0 ([IsPlain 1%Z; IsAttachment "report"] ++ sample_args) [] (-1))
  = snd (Notify_range (Plain := Z) 0 [IsPlain 1%Z; IsAttachment "report"] [] (-1)).
Proof.
  apply (Notify_range_composes [IsPlain 1%Z; IsAttachment "report"] sample_args 0 [] (-1)).
  discriminate.
Defined.

Lemma Notify_drops_later_plain_witness :
  Notify (Err := string) sample_Sprintf "alerts" "%d done"
    ([IsPlain 1%Z] ++ IsAttachment "report" :: [] ++ IsPlain 2%Z :: [])
    (fun _ _ _ => None)
  = Notify sample_Sprintf "alerts" "%d done"
      ([IsPlain 1%Z] ++ IsAttachment "report" :: [] ++ []) (fun _ _ _ => None).
Proof.
  apply (Notify_drops_later_plain sample_Sprintf (fun _ _ _ => None) "alerts" "%d done"
           [IsPlain 1%Z] [] [] (IsAttachment "report") 2%Z).
  - repeat constructor.
  - now exists "report".
Defined.

End NotifyMoreSamples.
